(** * kontrol/keypair.go: the key pair entity and its in-memory storage

    A shallow embedding of [KeyPair], [KeyPair.Validate] and
    [MemKeyPairStorage] (AddKey, DeleteKey, GetKeyFromID, GetKeyFromPublic,
    IsValid), followed by the properties of the storage contract.

    Conventions of the embedding
    - a Go [string] is a [string];
    - a Go [error] result is an [option error], [None] being [nil];
    - a Go [(T, error)] result of which exactly one component is set is a
      [result T];
    - a method with a pointer receiver is a state computation over the
      contents of its receiver ([State]): it returns its result together with
      the contents of the receiver after the call;
    - [*KeyPair] values are never written through by this package, so a
      pointer to a key pair is represented by the key pair it points to
      (a nil [*KeyPair] makes Validate, AddKey and DeleteKey panic and is
      outside the embedding). *)

From Stdlib Require Import String.
From stdpp Require Import gmap strings fin_maps.

Open Scope string_scope.

(** ** Errors, results and dynamically typed values *)

(** Go errors. [cache.ErrNotFound] is a sentinel compared by identity;
    the errors built by [errors.New] and [fmt.Errorf] are identified by
    their message. *)
Inductive error : Type :=
| ErrNotFound
| errorString (s : string).

Definition errors_New (text : string) : error := errorString text.

(** [(T, error)] *)
Inductive result (A : Type) : Type :=
| Ok (a : A)
| Err (err : error).
Arguments Ok {A} a.
Arguments Err {A} err.

(** ** State computations *)

Definition State (S A : Type) : Type := S -> A * S.

Definition ret {S A : Type} (a : A) : State S A := fun s => (a, s).

Definition bind {S A B : Type} (c : State S A) (k : A -> State S B) : State S B :=
  fun s => let '(a, s') := c s in k a s'.

Declare Scope state_scope.
Delimit Scope state_scope with state.
Notation "x <- c ;; k" := (bind c (fun x => k))
  (at level 100, c at next level, right associativity) : state_scope.
Notation "c ;; k" := (bind c (fun _ => k))
  (at level 100, right associativity) : state_scope.

(** ** The key pair entity *)

Record KeyPair : Type := mkKeyPair {
  ID : string;
  Public : string;
  Private : string
}.

(** [interface{}] as stored in a cache: either a [*KeyPair], or a value of
    another dynamic type, kept as its [%+v] rendering (all that the program
    observes of it). *)
Inductive iface : Type :=
| PtrKeyPair (k : KeyPair)
| Dyn (repr : string).

(** [func (k *KeyPair) Validate() error] *)
Definition Validate : State KeyPair (option error) := fun k =>
  if String.eqb (ID k) "" then
    (Some (errors_New "KeyPair ID field is empty"), k)
  else if String.eqb (Public k) "" then
    (Some (errors_New "KeyPair Public field is empty"), k)
  else if String.eqb (Private k) "" then
    (Some (errors_New "KeyPair Private field is empty"), k)
  else (None, k).

(** ** The cache backend *)

Module cache.

(** Modelled from the spec: the in-memory backend of [cache.Cache]
    (package github.com/koding/cache, an external dependency), which the
    spec describes as an associative map with point lookup, insert and
    delete, the lookup failing with NotFound when the key is absent.
    [Set] (here [Set_], Set being reserved) and [Delete] of this backend
    return a nil error, which the callers below drop. *)
Abbreviation Memory := (gmap string iface).

(** [cache.NewMemory()]: no items. *)
Definition NewMemory : Memory := ∅.

(** [Get(key)]: the item, or [ErrNotFound]. *)
Definition Get (key : string) (items : Memory) : result iface :=
  match items !! key with
  | Some value => Ok value
  | None => Err ErrNotFound
  end.

(** [Set(key, value)] *)
Definition Set_ (key : string) (value : iface) (items : Memory) : Memory :=
  <[key := value]> items.

(** [Delete(key)] *)
Definition Delete (key : string) (items : Memory) : Memory :=
  delete key items.

End cache.

(** ** MemKeyPairStorage *)

(** The two fields hold distinct caches, as [NewMemKeyPairStorage] builds
    them. *)
Record MemKeyPairStorage : Type := mkMemKeyPairStorage {
  id : cache.Memory;
  public : cache.Memory
}.

(** [func NewMemKeyPairStorage() *MemKeyPairStorage] *)
Definition NewMemKeyPairStorage : MemKeyPairStorage :=
  {| id := cache.NewMemory; public := cache.NewMemory |}.

Section Fields.
Local Open Scope state_scope.

(** [m.id.Get(key)], [m.id.Set(key, v)], [m.id.Delete(key)] *)
Definition id_Get (key : string) : State MemKeyPairStorage (result iface) :=
  fun m => (cache.Get key (id m), m).
Definition id_Set (key : string) (v : iface) : State MemKeyPairStorage unit :=
  fun m => (tt, {| id := cache.Set_ key v (id m); public := public m |}).
Definition id_Delete (key : string) : State MemKeyPairStorage unit :=
  fun m => (tt, {| id := cache.Delete key (id m); public := public m |}).

(** [m.public.Get(key)], [m.public.Set(key, v)], [m.public.Delete(key)] *)
Definition public_Get (key : string) : State MemKeyPairStorage (result iface) :=
  fun m => (cache.Get key (public m), m).
Definition public_Set (key : string) (v : iface) : State MemKeyPairStorage unit :=
  fun m => (tt, {| id := id m; public := cache.Set_ key v (public m) |}).
Definition public_Delete (key : string) : State MemKeyPairStorage unit :=
  fun m => (tt, {| id := id m; public := cache.Delete key (public m) |}).

(** [fmt.Errorf("MemKeyPairStorage: <fn> value is malformed %+v", v)] *)
Definition malformed (fn : string) (v : string) : error :=
  errorString ("MemKeyPairStorage: " ++ fn ++ " value is malformed " ++ v).

(** [func (m *MemKeyPairStorage) GetKeyFromID(id string)], returning a [*KeyPair] and an error *)
Definition GetKeyFromID (i : string) : State MemKeyPairStorage (result KeyPair) :=
  r <- id_Get i;;
  match r with
  | Err err => ret (Err err)
  | Ok (PtrKeyPair keyPair) => ret (Ok keyPair)
  | Ok (Dyn v) => ret (Err (malformed "GetKeyFromID" v))
  end.

(** [func (m *MemKeyPairStorage) GetKeyFromPublic(public string)], returning a [*KeyPair] and an error *)
Definition GetKeyFromPublic (pub : string) : State MemKeyPairStorage (result KeyPair) :=
  r <- public_Get pub;;
  match r with
  | Err err => ret (Err err)
  | Ok (PtrKeyPair keyPair) => ret (Ok keyPair)
  | Ok (Dyn v) => ret (Err (malformed "GetKeyFromPublic" v))
  end.

(** [func (m *MemKeyPairStorage) AddKey(keyPair *KeyPair) error] *)
Definition AddKey (keyPair : KeyPair) : State MemKeyPairStorage (option error) :=
  let '(verr, keyPair) := Validate keyPair in
  match verr with
  | Some err => ret (Some err)
  | None =>
      id_Set (ID keyPair) (PtrKeyPair keyPair);;
      public_Set (Public keyPair) (PtrKeyPair keyPair);;
      ret None
  end.

(** [func (m *MemKeyPairStorage) DeleteKey(keyPair *KeyPair) error] *)
Definition DeleteKey (keyPair : KeyPair) : State MemKeyPairStorage (option error) :=
  if String.eqb (Public keyPair) "" then
    r <- GetKeyFromID (ID keyPair);;
    match r with
    | Err err => ret (Some err)
    | Ok k =>
        public_Delete (Public k);;
        id_Delete (ID keyPair);;
        ret None
    end
  else
    id_Delete (ID keyPair);;
    ret None.

(** [func (m *MemKeyPairStorage) IsValid(public string) error] *)
Definition IsValid (pub : string) : State MemKeyPairStorage (option error) :=
  r <- GetKeyFromPublic pub;;
  match r with
  | Ok _ => ret None
  | Err err => ret (Some err)
  end.

End Fields.

(** ** Vocabulary of the storage contract *)

(** A key pair is structurally valid when its three fields are non-empty. *)
Definition valid (k : KeyPair) : Prop :=
  ID k ≠ "" ∧ Public k ≠ "" ∧ Private k ≠ "".

(** The error of [Validate] for the field called [name]. *)
Definition field_empty (name : string) : error :=
  errors_New ("KeyPair " ++ name ++ " field is empty").

(** The error classes of the contract, as sets of the errors the code
    builds. *)
Definition ValidationError (e : error) : Prop :=
  e = field_empty "ID" ∨ e = field_empty "Public" ∨ e = field_empty "Private".

Definition NotFound (e : error) : Prop := e = ErrNotFound.

Definition Corrupt (e : error) : Prop :=
  ∃ fn v, e = malformed fn v.

(** A lookup fails with NotFound in store [m]. *)
Definition NotFound_by_ID (i : string) (m : MemKeyPairStorage) : Prop :=
  ∃ e, fst (GetKeyFromID i m) = Err e ∧ NotFound e.

Definition NotFound_by_Public (pub : string) (m : MemKeyPairStorage) : Prop :=
  ∃ e, fst (GetKeyFromPublic pub m) = Err e ∧ NotFound e.

(** Running a computation: its result and the store it leaves. *)
Abbreviation result_of c m := (fst (c m)).
Abbreviation store_after c m := (snd (c m)).

(** ** Stores reached through the methods *)

(** A call of one of the five methods of [KeyPairStorage]. *)
Inductive call : Type :=
| CallAddKey (keyPair : KeyPair)
| CallDeleteKey (keyPair : KeyPair)
| CallGetKeyFromID (i : string)
| CallGetKeyFromPublic (pub : string)
| CallIsValid (pub : string).

(** The store a call leaves. *)
Definition after_call (c : call) (m : MemKeyPairStorage) : MemKeyPairStorage :=
  match c with
  | CallAddKey keyPair => snd (AddKey keyPair m)
  | CallDeleteKey keyPair => snd (DeleteKey keyPair m)
  | CallGetKeyFromID i => snd (GetKeyFromID i m)
  | CallGetKeyFromPublic pub => snd (GetKeyFromPublic pub m)
  | CallIsValid pub => snd (IsValid pub m)
  end.

(** The error a call returns, [None] for nil. *)
Definition call_error (c : call) (m : MemKeyPairStorage) : option error :=
  let error_of {A} (r : result A) :=
    match r with Ok _ => None | Err err => Some err end in
  match c with
  | CallAddKey keyPair => fst (AddKey keyPair m)
  | CallDeleteKey keyPair => fst (DeleteKey keyPair m)
  | CallGetKeyFromID i => error_of (fst (GetKeyFromID i m))
  | CallGetKeyFromPublic pub => error_of (fst (GetKeyFromPublic pub m))
  | CallIsValid pub => fst (IsValid pub m)
  end.

(** The store a sequence of calls leaves, the head of the list being the
    first call. *)
Definition after_calls (cs : list call) (m : MemKeyPairStorage)
  : MemKeyPairStorage :=
  foldl (fun m c => after_call c m) m cs.

(** An entry as [AddKey] files it: a valid key pair, under the key that
    [field] reads off it. *)
Definition filed_under (field : KeyPair → string) (key : string) (v : iface)
  : Prop :=
  ∃ k, v = PtrKeyPair k ∧ field k = key ∧ valid k.

(** Every entry of the id index is filed under its ID and every entry of
    the public index under its public key. *)
Definition well_formed (m : MemKeyPairStorage) : Prop :=
  map_Forall (filed_under ID) (id m) ∧
  map_Forall (filed_under Public) (public m).

(** ** Equations of the operations *)

Ltac run := unfold bind, ret, id_Get, id_Set, id_Delete,
  public_Get, public_Set, public_Delete, cache.Get, cache.Set_, cache.Delete.

Ltac empty_or_not s := destruct (String.eqb_spec s "") as [?|?].

Lemma Validate_valid k : valid k → Validate k = (None, k).
Proof.
  intros (Hi & Hp & Hs). unfold Validate.
  empty_or_not (ID k); [done|].
  empty_or_not (Public k); [done|].
  empty_or_not (Private k); [done|].
  reflexivity.
Qed.

Lemma Validate_invalid k :
  ID k = "" ∨ Public k = "" ∨ Private k = "" →
  ∃ e, ValidationError e ∧ Validate k = (Some e, k).
Proof.
  intros H. unfold Validate, ValidationError.
  empty_or_not (ID k); [eauto|].
  empty_or_not (Public k); [eauto|].
  empty_or_not (Private k); [eauto 6|].
  destruct H as [?|[?|?]]; done.
Qed.

Lemma GetKeyFromID_eq i m :
  GetKeyFromID i m =
  (match id m !! i with
   | Some (PtrKeyPair k) => Ok k
   | Some (Dyn v) => Err (malformed "GetKeyFromID" v)
   | None => Err ErrNotFound
   end, m).
Proof.
  unfold GetKeyFromID. run.
  destruct (id m !! i) as [[k|v]|]; reflexivity.
Qed.

Lemma GetKeyFromPublic_eq pub m :
  GetKeyFromPublic pub m =
  (match public m !! pub with
   | Some (PtrKeyPair k) => Ok k
   | Some (Dyn v) => Err (malformed "GetKeyFromPublic" v)
   | None => Err ErrNotFound
   end, m).
Proof.
  unfold GetKeyFromPublic. run.
  destruct (public m !! pub) as [[k|v]|]; reflexivity.
Qed.

Lemma AddKey_valid k m :
  valid k →
  AddKey k m =
  (None, {| id := <[ID k := PtrKeyPair k]> (id m);
            public := <[Public k := PtrKeyPair k]> (public m) |}).
Proof.
  intros Hk. unfold AddKey. rewrite (Validate_valid k Hk). run. reflexivity.
Qed.

Lemma DeleteKey_with_public req m :
  Public req ≠ "" →
  DeleteKey req m =
  (None, {| id := delete (ID req) (id m); public := public m |}).
Proof.
  intros Hp. unfold DeleteKey.
  empty_or_not (Public req); [done|]. run. reflexivity.
Qed.

Lemma DeleteKey_by_id req m :
  Public req = "" →
  DeleteKey req m =
  match id m !! ID req with
  | Some (PtrKeyPair k) =>
      (None, {| id := delete (ID req) (id m);
                public := delete (Public k) (public m) |})
  | Some (Dyn v) => (Some (malformed "GetKeyFromID" v), m)
  | None => (Some ErrNotFound, m)
  end.
Proof.
  intros Hp. unfold DeleteKey. rewrite Hp. simpl.
  unfold bind at 1. rewrite GetKeyFromID_eq.
  destruct (id m !! ID req) as [[k|v]|]; run; reflexivity.
Qed.

(** ** Validation *)

(** C4. [Validate] returns no error exactly when the three fields are
    non-empty; otherwise its error names the first empty field in the order
    ID, Public, Private; and it leaves its receiver as it found it. *)
Theorem Validate_spec (k : KeyPair) :
  (result_of Validate k = None ↔ valid k) ∧
  (ID k = "" → result_of Validate k = Some (field_empty "ID")) ∧
  (ID k ≠ "" → Public k = "" →
     result_of Validate k = Some (field_empty "Public")) ∧
  (ID k ≠ "" → Public k ≠ "" → Private k = "" →
     result_of Validate k = Some (field_empty "Private")) ∧
  store_after Validate k = k.
Proof.
  unfold Validate, valid.
  destruct (String.eqb_spec (ID k) "") as [Hi|Hi];
    [|destruct (String.eqb_spec (Public k) "") as [Hp|Hp];
      [|destruct (String.eqb_spec (Private k) "") as [Hs|Hs]]];
    simpl; repeat split; try done; try discriminate;
    intros (? & ? & ?); done.
Qed.

(** ** Adding *)

(** C2. Adding a key pair with an empty field fails with a validation
    error and leaves the store as it was; a lookup by its ID or by its
    public key that failed with NotFound before still does. *)
Theorem AddKey_invalid_no_mutation (k : KeyPair) (m : MemKeyPairStorage) :
  ID k = "" ∨ Public k = "" ∨ Private k = "" →
  (∃ e, ValidationError e ∧ result_of (AddKey k) m = Some e) ∧
  store_after (AddKey k) m = m ∧
  (NotFound_by_ID (ID k) m →
     NotFound_by_ID (ID k) (store_after (AddKey k) m)) ∧
  (NotFound_by_Public (Public k) m →
     NotFound_by_Public (Public k) (store_after (AddKey k) m)).
Proof.
  intros Hk. destruct (Validate_invalid k Hk) as (e & He & Hv).
  assert (AddKey k m = (Some e, m)) as ->
    by (unfold AddKey; rewrite Hv; reflexivity).
  simpl. split; [exists e; done|]. done.
Qed.

Lemma AddKey_invalid_no_mutation_witness :
  let k := mkKeyPair "h1" "" "priv1" in
  Public k = "" ∧
  store_after (AddKey k) NewMemKeyPairStorage = NewMemKeyPairStorage.
Proof.
  intros k.
  assert (Public k = "") as Hp by reflexivity.
  split; [exact Hp|].
  apply (AddKey_invalid_no_mutation k NewMemKeyPairStorage).
  right; left; exact Hp.
Defined.

(** C3. After a valid key pair is added, which succeeds, it is returned by
    the lookup by its ID and by the lookup by its public key. *)
Theorem AddKey_round_trip (k : KeyPair) (m : MemKeyPairStorage) :
  valid k →
  result_of (AddKey k) m = None ∧
  result_of (GetKeyFromID (ID k)) (store_after (AddKey k) m) = Ok k ∧
  result_of (GetKeyFromPublic (Public k)) (store_after (AddKey k) m) = Ok k.
Proof.
  intros Hk. rewrite (AddKey_valid k m Hk).
  rewrite GetKeyFromID_eq, GetKeyFromPublic_eq. simpl.
  by rewrite !lookup_insert_eq.
Qed.

Lemma AddKey_round_trip_witness :
  let k := mkKeyPair "h1" "pub1" "priv1" in
  let m1 := store_after (AddKey k) NewMemKeyPairStorage in
  valid k ∧
  result_of (GetKeyFromID "h1") m1 = Ok k ∧
  result_of (GetKeyFromPublic "pub1") m1 = Ok k.
Proof.
  intros k m1.
  assert (valid k) as Hk by (repeat split; discriminate).
  split; [exact Hk|].
  apply (AddKey_round_trip k NewMemKeyPairStorage Hk).
Defined.

(** C7. Adding two valid key pairs with the same ID and different public
    keys, one after the other: the lookup by the ID returns the second, and
    the lookup by the first public key still returns the first. *)
Theorem AddKey_overwrite_by_id (k1 k2 : KeyPair) (m : MemKeyPairStorage) :
  valid k1 → valid k2 → ID k1 = ID k2 → Public k1 ≠ Public k2 →
  let m1 := store_after (AddKey k1) m in
  let m2 := store_after (AddKey k2) m1 in
  result_of (AddKey k1) m = None ∧
  result_of (AddKey k2) m1 = None ∧
  result_of (GetKeyFromID (ID k1)) m2 = Ok k2 ∧
  result_of (GetKeyFromPublic (Public k1)) m2 = Ok k1.
Proof.
  intros H1 H2 Hid Hpub m1 m2. subst m2 m1.
  rewrite (AddKey_valid k1 m H1). simpl.
  rewrite (AddKey_valid k2 _ H2). simpl.
  rewrite GetKeyFromID_eq, GetKeyFromPublic_eq. simpl.
  rewrite Hid, lookup_insert_eq.
  rewrite lookup_insert_ne by done.
  by rewrite lookup_insert_eq.
Qed.

Lemma AddKey_overwrite_by_id_witness :
  let k1 := mkKeyPair "h1" "pub1" "priv1" in
  let k2 := mkKeyPair "h1" "pub2" "priv2" in
  let m2 := store_after (AddKey k2)
              (store_after (AddKey k1) NewMemKeyPairStorage) in
  result_of (GetKeyFromID "h1") m2 = Ok k2 ∧
  result_of (GetKeyFromPublic "pub1") m2 = Ok k1.
Proof.
  intros k1 k2 m2.
  apply (AddKey_overwrite_by_id k1 k2 NewMemKeyPairStorage);
    [repeat split; discriminate | repeat split; discriminate
    | reflexivity | discriminate].
Defined.

(** ** Deleting *)

(** C5. After a valid key pair [k] is added, deleting with a request that
    carries the ID of [k] and an empty public key succeeds and removes both
    entries: the lookups by the ID and by the public key of [k] fail with
    NotFound. *)
Theorem DeleteKey_by_id_removes_both
    (k req : KeyPair) (m : MemKeyPairStorage) :
  valid k → ID req = ID k → Public req = "" →
  let m1 := store_after (AddKey k) m in
  let m2 := store_after (DeleteKey req) m1 in
  result_of (DeleteKey req) m1 = None ∧
  result_of (GetKeyFromID (ID k)) m2 = Err ErrNotFound ∧
  result_of (GetKeyFromPublic (Public k)) m2 = Err ErrNotFound.
Proof.
  intros Hk Hid Hpub m1 m2. subst m2 m1.
  rewrite (AddKey_valid k m Hk). simpl.
  rewrite (DeleteKey_by_id req _ Hpub). simpl.
  rewrite Hid, lookup_insert_eq. simpl.
  rewrite GetKeyFromID_eq, GetKeyFromPublic_eq. simpl.
  by rewrite !lookup_delete_eq.
Qed.

Lemma DeleteKey_by_id_removes_both_witness :
  let k := mkKeyPair "h1" "pub1" "priv1" in
  let req := mkKeyPair "h1" "" "" in
  let m2 := store_after (DeleteKey req)
              (store_after (AddKey k) NewMemKeyPairStorage) in
  valid k ∧
  result_of (GetKeyFromID "h1") m2 = Err ErrNotFound ∧
  result_of (GetKeyFromPublic "pub1") m2 = Err ErrNotFound.
Proof.
  intros k req m2.
  assert (valid k) as Hk by (repeat split; discriminate).
  split; [exact Hk|].
  apply (DeleteKey_by_id_removes_both k req NewMemKeyPairStorage Hk);
    reflexivity.
Defined.

(** C8. Deleting with an empty public key and an ID that has no entry fails
    with NotFound and leaves the store as it was. *)
Theorem DeleteKey_by_id_absent (req : KeyPair) (m : MemKeyPairStorage) :
  id m !! ID req = None → Public req = "" →
  (∃ e, result_of (DeleteKey req) m = Some e ∧ NotFound e) ∧
  store_after (DeleteKey req) m = m.
Proof.
  intros Hid Hpub. rewrite (DeleteKey_by_id req m Hpub), Hid. simpl.
  split; [by exists ErrNotFound | reflexivity].
Qed.

Lemma DeleteKey_by_id_absent_witness :
  let req := mkKeyPair "h1" "" "" in
  id NewMemKeyPairStorage !! ID req = None ∧
  store_after (DeleteKey req) NewMemKeyPairStorage = NewMemKeyPairStorage.
Proof.
  intros req.
  assert (id NewMemKeyPairStorage !! ID req = None) as Hid by reflexivity.
  split; [exact Hid|].
  apply (DeleteKey_by_id_absent req NewMemKeyPairStorage Hid). reflexivity.
Defined.

(** C9. Deleting with a non-empty public key returns no error, whatever
    the two indexes hold. *)
Theorem DeleteKey_with_public_succeeds
    (req : KeyPair) (m : MemKeyPairStorage) :
  Public req ≠ "" → result_of (DeleteKey req) m = None.
Proof.
  intros Hpub. by rewrite (DeleteKey_with_public req m Hpub).
Qed.

Lemma DeleteKey_with_public_succeeds_witness :
  let req := mkKeyPair "h1" "pub1" "priv1" in
  Public req ≠ "" ∧ result_of (DeleteKey req) NewMemKeyPairStorage = None.
Proof.
  intros req.
  assert (Public req ≠ "") as Hpub by discriminate.
  split; [exact Hpub|].
  exact (DeleteKey_with_public_succeeds req NewMemKeyPairStorage Hpub).
Defined.

(** What deleting with the public key populated does to a store that
    holds the key pair: the ID entry goes, the public entry stays. *)
Lemma DeleteKey_with_public_after_AddKey (k : KeyPair) (m : MemKeyPairStorage) :
  valid k →
  let m2 := store_after (DeleteKey k) (store_after (AddKey k) m) in
  result_of (GetKeyFromID (ID k)) m2 = Err ErrNotFound ∧
  result_of (GetKeyFromPublic (Public k)) m2 = Ok k.
Proof.
  intros Hk m2. subst m2.
  rewrite (AddKey_valid k m Hk). simpl.
  rewrite DeleteKey_with_public by apply Hk. simpl.
  rewrite GetKeyFromID_eq, GetKeyFromPublic_eq. simpl.
  by rewrite lookup_delete_eq, lookup_insert_eq.
Qed.

(** C1. On the key pair h1/pub1/priv1 added to a new store and then deleted
    with its public key populated, the lookup by ID fails with NotFound but
    the lookup by public key still returns the key pair, and [IsValid]
    still accepts the public key. *)
Theorem DeleteKey_with_public_keeps_public_entry :
  let k := mkKeyPair "h1" "pub1" "priv1" in
  let m1 := store_after (AddKey k) NewMemKeyPairStorage in
  let m2 := store_after (DeleteKey k) m1 in
  result_of (AddKey k) NewMemKeyPairStorage = None ∧
  result_of (DeleteKey k) m1 = None ∧
  result_of (GetKeyFromID "h1") m2 = Err ErrNotFound ∧
  result_of (GetKeyFromPublic "pub1") m2 = Ok k ∧
  result_of (IsValid "pub1") m2 = None.
Proof. vm_compute. repeat split; reflexivity. Qed.

(** ** Lookups *)

(** C6. [IsValid] returns no error exactly when the lookup by public key
    succeeds, and when that lookup fails, with NotFound or Corrupt,
    [IsValid] returns the error of the lookup. *)
Theorem IsValid_spec (pub : string) (m : MemKeyPairStorage) :
  (result_of (IsValid pub) m = None ↔
     ∃ k, result_of (GetKeyFromPublic pub) m = Ok k) ∧
  (∀ e, result_of (GetKeyFromPublic pub) m = Err e →
     result_of (IsValid pub) m = Some e ∧ (NotFound e ∨ Corrupt e)).
Proof.
  unfold IsValid, bind. rewrite GetKeyFromPublic_eq.
  destruct (public m !! pub) as [[k|v]|]; simpl.
  - split; [split; eauto | discriminate].
  - split; [split; [discriminate | intros [? ?]; discriminate]|].
    intros e [= <-]. split; [reflexivity|]. right. by eexists _, _.
  - split; [split; [discriminate | intros [? ?]; discriminate]|].
    intros e [= <-]. split; [reflexivity|]. by left.
Qed.

(** C10. The two lookups and [IsValid] leave the store as they found it,
    on every input and every store, whether they succeed or fail. *)
Theorem lookups_do_not_mutate (s : string) (m : MemKeyPairStorage) :
  store_after (GetKeyFromID s) m = m ∧
  store_after (GetKeyFromPublic s) m = m ∧
  store_after (IsValid s) m = m.
Proof.
  unfold IsValid, bind.
  rewrite GetKeyFromID_eq, GetKeyFromPublic_eq. simpl.
  repeat split. by destruct (public m !! s) as [[?|?]|].
Qed.

(** ** The scenarios of the contract *)

Example scenario_A :
  let k := mkKeyPair "h1" "pub1" "priv1" in
  (GetKeyFromID "h1" (AddKey k NewMemKeyPairStorage).2).1 = Ok k.
Proof. vm_compute. reflexivity. Qed.

Example scenario_B :
  let k := mkKeyPair "h1" "" "priv1" in
  AddKey k NewMemKeyPairStorage
  = (Some (field_empty "Public"), NewMemKeyPairStorage).
Proof. reflexivity. Qed.

Example scenario_C :
  let k := mkKeyPair "h1" "pub1" "priv1" in
  let m1 := store_after (AddKey k) NewMemKeyPairStorage in
  let m2 := store_after (DeleteKey (mkKeyPair "h1" "" "")) m1 in
  result_of (IsValid "pub1") m2 = Some ErrNotFound.
Proof. vm_compute. reflexivity. Qed.

(** * Further properties of the storage *)

(** ** Case analyses shared by the proofs below *)

Lemma valid_or_empty_field k :
  valid k ∨ (ID k = "" ∨ Public k = "" ∨ Private k = "").
Proof.
  unfold valid.
  destruct (decide (ID k = "")); [by right; left|].
  destruct (decide (Public k = "")); [by right; right; left|].
  destruct (decide (Private k = "")); [by right; right; right|].
  by left.
Qed.

Lemma AddKey_eq k m :
  AddKey k m =
  match fst (Validate k) with
  | Some e => (Some e, m)
  | None => (None, {| id := <[ID k := PtrKeyPair k]> (id m);
                      public := <[Public k := PtrKeyPair k]> (public m) |})
  end.
Proof.
  unfold AddKey, Validate.
  empty_or_not (ID k); [done|].
  empty_or_not (Public k); [done|].
  empty_or_not (Private k); done.
Qed.

Lemma AddKey_cases k m :
  (valid k ∧
   AddKey k m =
   (None, {| id := <[ID k := PtrKeyPair k]> (id m);
             public := <[Public k := PtrKeyPair k]> (public m) |})) ∨
  (∃ e, ValidationError e ∧ AddKey k m = (Some e, m)).
Proof.
  destruct (valid_or_empty_field k) as [Hk|Hk].
  - left. split; [done|]. by apply AddKey_valid.
  - right. destruct (Validate_invalid k Hk) as (e & He & Hv).
    exists e. split; [done|]. unfold AddKey. by rewrite Hv.
Qed.

Lemma DeleteKey_cases req m :
  (∃ k, Public req = "" ∧ fst (GetKeyFromID (ID req) m) = Ok k ∧
        DeleteKey req m =
        (None, {| id := delete (ID req) (id m);
                  public := delete (Public k) (public m) |})) ∨
  (Public req ≠ "" ∧
   DeleteKey req m =
   (None, {| id := delete (ID req) (id m); public := public m |})) ∨
  (∃ e, Public req = "" ∧ fst (GetKeyFromID (ID req) m) = Err e ∧
        DeleteKey req m = (Some e, m)).
Proof.
  destruct (decide (Public req = "")) as [Hp|Hp].
  - rewrite (DeleteKey_by_id req m Hp), GetKeyFromID_eq. simpl.
    destruct (id m !! ID req) as [[k|v]|].
    + left. by exists k.
    + right; right. by eexists.
    + right; right. by eexists.
  - right; left. by rewrite (DeleteKey_with_public req m Hp).
Qed.

Lemma IsValid_eq p m :
  IsValid p m =
  (match fst (GetKeyFromPublic p m) with Ok _ => None | Err e => Some e end,
   m).
Proof.
  unfold IsValid, bind. rewrite GetKeyFromPublic_eq.
  by destruct (public m !! p) as [[?|?]|].
Qed.

(** ** A new storage *)

(** X1. A new storage holds nothing: for every key both lookups and
    [IsValid] fail with [cache.ErrNotFound]. *)
Theorem NewMemKeyPairStorage_holds_nothing (s : string) :
  result_of (GetKeyFromID s) NewMemKeyPairStorage = Err ErrNotFound ∧
  result_of (GetKeyFromPublic s) NewMemKeyPairStorage = Err ErrNotFound ∧
  result_of (IsValid s) NewMemKeyPairStorage = Some ErrNotFound.
Proof.
  unfold IsValid, bind. rewrite GetKeyFromID_eq, GetKeyFromPublic_eq. simpl.
  unfold cache.NewMemory. by rewrite !lookup_empty.
Qed.

(** ** What a call leaves alone *)

(** X2. [AddKey] touches one key of each index: the lookup by any other ID
    and the lookup by any other public key return what they returned
    before the call. *)
Theorem AddKey_frame (k : KeyPair) (m : MemKeyPairStorage) (i p : string) :
  i ≠ ID k → p ≠ Public k →
  result_of (GetKeyFromID i) (store_after (AddKey k) m)
  = result_of (GetKeyFromID i) m ∧
  result_of (GetKeyFromPublic p) (store_after (AddKey k) m)
  = result_of (GetKeyFromPublic p) m.
Proof.
  intros Hi Hp.
  destruct (AddKey_cases k m) as [[_ ->]|(e & _ & ->)]; [|done].
  rewrite !GetKeyFromID_eq, !GetKeyFromPublic_eq. simpl.
  by rewrite !lookup_insert_ne.
Qed.

Lemma AddKey_frame_witness :
  let k1 := mkKeyPair "h1" "pub1" "priv1" in
  let k2 := mkKeyPair "h2" "pub2" "priv2" in
  let m1 := store_after (AddKey k1) NewMemKeyPairStorage in
  "h1" ≠ ID k2 ∧ "pub1" ≠ Public k2 ∧
  result_of (GetKeyFromID "h1") (store_after (AddKey k2) m1) = Ok k1 ∧
  result_of (GetKeyFromPublic "pub1") (store_after (AddKey k2) m1) = Ok k1.
Proof.
  intros k1 k2 m1.
  assert ("h1" ≠ ID k2) as Hi by discriminate.
  assert ("pub1" ≠ Public k2) as Hp by discriminate.
  split; [exact Hi|]. split; [exact Hp|].
  destruct (AddKey_frame k2 m1 "h1" "pub1" Hi Hp) as [-> ->].
  split; reflexivity.
Defined.

(** X3. [DeleteKey] touches the id index at the ID of the request only, and
    the public index at most at the public key of the request or of the
    key pair stored under that ID: the lookup by any other ID and by any
    other public key return what they returned before the call, whether
    the call fails or not. *)
Theorem DeleteKey_frame (req : KeyPair) (m : MemKeyPairStorage) (i p : string) :
  i ≠ ID req → p ≠ Public req →
  (∀ k, result_of (GetKeyFromID (ID req)) m = Ok k → p ≠ Public k) →
  result_of (GetKeyFromID i) (store_after (DeleteKey req) m)
  = result_of (GetKeyFromID i) m ∧
  result_of (GetKeyFromPublic p) (store_after (DeleteKey req) m)
  = result_of (GetKeyFromPublic p) m.
Proof.
  intros Hi Hp Hstored.
  destruct (DeleteKey_cases req m)
    as [(k & _ & Hk & ->)|[(_ & ->)|(e & _ & _ & ->)]]; [| |done].
  - rewrite !GetKeyFromID_eq, !GetKeyFromPublic_eq. simpl.
    rewrite lookup_delete_ne by done.
    by rewrite lookup_delete_ne by (apply not_eq_sym, Hstored, Hk).
  - rewrite !GetKeyFromID_eq, !GetKeyFromPublic_eq. simpl.
    by rewrite lookup_delete_ne.
Qed.

Lemma DeleteKey_frame_witness :
  let k1 := mkKeyPair "h1" "pub1" "priv1" in
  let k2 := mkKeyPair "h2" "pub2" "priv2" in
  let req := mkKeyPair "h2" "" "" in
  let m2 := store_after (AddKey k2)
              (store_after (AddKey k1) NewMemKeyPairStorage) in
  "h1" ≠ ID req ∧ "pub1" ≠ Public req ∧
  result_of (GetKeyFromID "h1") (store_after (DeleteKey req) m2) = Ok k1 ∧
  result_of (GetKeyFromPublic "pub1") (store_after (DeleteKey req) m2) = Ok k1.
Proof.
  intros k1 k2 req m2.
  assert ("h1" ≠ ID req) as Hi by discriminate.
  assert ("pub1" ≠ Public req) as Hp by discriminate.
  assert (∀ k, result_of (GetKeyFromID (ID req)) m2 = Ok k → "pub1" ≠ Public k)
    as Hstored by (vm_compute; intros k [= <-]; discriminate).
  split; [exact Hi|]. split; [exact Hp|].
  destruct (DeleteKey_frame req m2 "h1" "pub1" Hi Hp Hstored) as [-> ->].
  split; reflexivity.
Defined.

(** ** How calls compose *)

(** X4. Adding the same key pair a second time changes nothing: the second
    call returns what the first returned and leaves the store of the first. *)
Theorem AddKey_idempotent (k : KeyPair) (m : MemKeyPairStorage) :
  AddKey k (store_after (AddKey k) m)
  = (result_of (AddKey k) m, store_after (AddKey k) m).
Proof.
  rewrite !AddKey_eq. destruct (Validate k).1; simpl; [done|].
  by rewrite !insert_insert_eq.
Qed.

(** X5. Two key pairs with different IDs and different public keys can be
    added in either order: the resulting stores are equal. *)
Theorem AddKey_commute (k1 k2 : KeyPair) (m : MemKeyPairStorage) :
  ID k1 ≠ ID k2 → Public k1 ≠ Public k2 →
  store_after (AddKey k2) (store_after (AddKey k1) m)
  = store_after (AddKey k1) (store_after (AddKey k2) m).
Proof.
  intros Hi Hp. rewrite !AddKey_eq.
  destruct (Validate k1).1, (Validate k2).1; simpl; try done.
  f_equal; by apply insert_insert_ne.
Qed.

Lemma AddKey_commute_witness :
  let k1 := mkKeyPair "h1" "pub1" "priv1" in
  let k2 := mkKeyPair "h2" "pub2" "priv2" in
  ID k1 ≠ ID k2 ∧ Public k1 ≠ Public k2 ∧
  store_after (AddKey k2) (store_after (AddKey k1) NewMemKeyPairStorage)
  = store_after (AddKey k1) (store_after (AddKey k2) NewMemKeyPairStorage).
Proof.
  intros k1 k2.
  assert (ID k1 ≠ ID k2) as Hi by discriminate.
  assert (Public k1 ≠ Public k2) as Hp by discriminate.
  split; [exact Hi|]. split; [exact Hp|].
  exact (AddKey_commute k1 k2 NewMemKeyPairStorage Hi Hp).
Defined.

(** X6. Adding a valid key pair whose ID and public key are both unused and
    then deleting it through its ID alone gives back the store as it was
    before the two calls. *)
Theorem AddKey_DeleteKey_by_id_restores
    (k req : KeyPair) (m : MemKeyPairStorage) :
  valid k → id m !! ID k = None → public m !! Public k = None →
  ID req = ID k → Public req = "" →
  store_after (DeleteKey req) (store_after (AddKey k) m) = m.
Proof.
  intros Hk Hi Hp Hid Hpub.
  rewrite (AddKey_valid k m Hk). simpl.
  rewrite (DeleteKey_by_id req _ Hpub). simpl.
  rewrite Hid, lookup_insert_eq. simpl.
  rewrite !delete_insert_id by done. by destruct m.
Qed.

Lemma AddKey_DeleteKey_by_id_restores_witness :
  let k1 := mkKeyPair "h1" "pub1" "priv1" in
  let k2 := mkKeyPair "h2" "pub2" "priv2" in
  let req := mkKeyPair "h2" "" "" in
  let m1 := store_after (AddKey k1) NewMemKeyPairStorage in
  valid k2 ∧ store_after (DeleteKey req) (store_after (AddKey k2) m1) = m1.
Proof.
  intros k1 k2 req m1.
  assert (valid k2) as Hk by (repeat split; discriminate).
  split; [exact Hk|].
  apply (AddKey_DeleteKey_by_id_restores k2 req m1 Hk);
    [vm_compute; reflexivity | vm_compute; reflexivity
    | reflexivity | reflexivity].
Defined.

(** X7. Whenever [DeleteKey] returns an error, the request had an empty
    public key, the error is the one of the lookup by the ID of the
    request, and the store is left as it was. *)
Theorem DeleteKey_error_atomic
    (req : KeyPair) (m : MemKeyPairStorage) (e : error) :
  result_of (DeleteKey req) m = Some e →
  Public req = "" ∧
  result_of (GetKeyFromID (ID req)) m = Err e ∧
  store_after (DeleteKey req) m = m.
Proof.
  intros He.
  destruct (DeleteKey_cases req m)
    as [(k & _ & _ & E)|[(_ & E)|(e' & Hp & Hg & E)]];
    rewrite E in He |- *; simpl in *; [done|done|].
  by injection He as <-.
Qed.

Lemma DeleteKey_error_atomic_witness :
  let req := mkKeyPair "h1" "" "" in
  result_of (DeleteKey req) NewMemKeyPairStorage = Some ErrNotFound ∧
  store_after (DeleteKey req) NewMemKeyPairStorage = NewMemKeyPairStorage.
Proof.
  intros req.
  assert (result_of (DeleteKey req) NewMemKeyPairStorage = Some ErrNotFound)
    as He by reflexivity.
  split; [exact He|].
  apply (DeleteKey_error_atomic req NewMemKeyPairStorage ErrNotFound He).
Defined.

(** X8. A delete through the ID alone that succeeded cannot be repeated:
    the same request then fails with [cache.ErrNotFound] and changes
    nothing. *)
Theorem DeleteKey_by_id_twice (req : KeyPair) (m : MemKeyPairStorage) :
  Public req = "" → result_of (DeleteKey req) m = None →
  DeleteKey req (store_after (DeleteKey req) m)
  = (Some ErrNotFound, store_after (DeleteKey req) m).
Proof.
  intros Hp Hok.
  destruct (DeleteKey_cases req m)
    as [(k & _ & _ & E)|[(Hne & _)|(e' & _ & _ & E)]]; [|done|].
  - rewrite E. simpl. rewrite (DeleteKey_by_id req _ Hp). simpl.
    by rewrite lookup_delete_eq.
  - rewrite E in Hok. discriminate.
Qed.

Lemma DeleteKey_by_id_twice_witness :
  let k := mkKeyPair "h1" "pub1" "priv1" in
  let req := mkKeyPair "h1" "" "" in
  let m1 := store_after (AddKey k) NewMemKeyPairStorage in
  Public req = "" ∧
  result_of (DeleteKey req) (store_after (DeleteKey req) m1)
  = Some ErrNotFound.
Proof.
  intros k req m1.
  assert (Public req = "") as Hp by reflexivity.
  assert (result_of (DeleteKey req) m1 = None) as Hok
    by (vm_compute; reflexivity).
  split; [exact Hp|].
  by rewrite (DeleteKey_by_id_twice req m1 Hp Hok).
Defined.

(** ** Stores reached from a new storage *)

Lemma well_formed_New : well_formed NewMemKeyPairStorage.
Proof. split; apply map_Forall_empty. Qed.

Lemma well_formed_AddKey k m :
  well_formed m → well_formed (store_after (AddKey k) m).
Proof.
  intros [Hid Hpub].
  destruct (AddKey_cases k m) as [[Hk ->]|(e & _ & ->)]; [|done].
  split; simpl; apply map_Forall_insert_2; try done; by exists k.
Qed.

Lemma well_formed_DeleteKey req m :
  well_formed m → well_formed (store_after (DeleteKey req) m).
Proof.
  intros [Hid Hpub].
  destruct (DeleteKey_cases req m)
    as [(k & _ & _ & ->)|[(_ & ->)|(e & _ & _ & ->)]]; [| |done];
    split; simpl; try done; by apply map_Forall_delete.
Qed.

Lemma well_formed_after_call c m :
  well_formed m → well_formed (after_call c m).
Proof.
  intros Hm. destruct c as [k|req|i|p|p]; simpl.
  - by apply well_formed_AddKey.
  - by apply well_formed_DeleteKey.
  - by rewrite GetKeyFromID_eq.
  - by rewrite GetKeyFromPublic_eq.
  - by rewrite IsValid_eq.
Qed.

Lemma well_formed_after_calls cs m :
  well_formed m → well_formed (after_calls cs m).
Proof.
  revert m. induction cs as [|c cs IH]; intros m Hm; [done|].
  simpl. apply IH. by apply well_formed_after_call.
Qed.

Lemma well_formed_lookup_by_ID i m :
  well_formed m →
  result_of (GetKeyFromID i) m = Err ErrNotFound ∨
  ∃ k, result_of (GetKeyFromID i) m = Ok k ∧ ID k = i ∧ valid k.
Proof.
  intros [Hid _]. rewrite GetKeyFromID_eq. simpl.
  destruct (id m !! i) as [v|] eqn:E; [|by left].
  destruct (Hid i v E) as (k & -> & Hi & Hk). right. by exists k.
Qed.

Lemma well_formed_lookup_by_Public p m :
  well_formed m →
  result_of (GetKeyFromPublic p) m = Err ErrNotFound ∨
  ∃ k, result_of (GetKeyFromPublic p) m = Ok k ∧ Public k = p ∧ valid k.
Proof.
  intros [_ Hpub]. rewrite GetKeyFromPublic_eq. simpl.
  destruct (public m !! p) as [v|] eqn:E; [|by left].
  destruct (Hpub p v E) as (k & -> & Hp & Hk). right. by exists k.
Qed.



(** X11. On a storage reached from a new one by any sequence of calls, the
    error of a further call is a validation error or [cache.ErrNotFound]:
    the malformed-value error of the lookups is never returned. *)
Theorem reachable_errors (cs : list call) (c : call) (e : error) :
  call_error c (after_calls cs NewMemKeyPairStorage) = Some e →
  ValidationError e ∨ NotFound e.
Proof.
  pose proof (well_formed_after_calls cs _ well_formed_New) as Hm.
  set (m := after_calls cs NewMemKeyPairStorage) in *.
  destruct c as [k|req|i|p|p]; simpl; intros He.
  - destruct (AddKey_cases k m) as [[_ E]|(e' & Hv & E)];
      rewrite E in He; simpl in He; [done|].
    left. by injection He as <-.
  - destruct (DeleteKey_cases req m)
      as [(k & _ & _ & E)|[(_ & E)|(e' & _ & Hg & E)]];
      rewrite E in He; simpl in He; [done|done|].
    injection He as <-.
    destruct (well_formed_lookup_by_ID (ID req) m Hm) as [E'|(k & E' & _)];
      rewrite E' in Hg; [|done]. right. by injection Hg as <-.
  - destruct (well_formed_lookup_by_ID i m Hm) as [E|(k & E & _)];
      rewrite E in He; [|done]. right. by injection He as <-.
  - destruct (well_formed_lookup_by_Public p m Hm) as [E|(k & E & _)];
      rewrite E in He; [|done]. right. by injection He as <-.
  - rewrite IsValid_eq in He. simpl in He.
    destruct (well_formed_lookup_by_Public p m Hm) as [E|(k & E & _)];
      rewrite E in He; [|done]. right. by injection He as <-.
Qed.

Lemma reachable_errors_witness :
  let cs := [CallAddKey (mkKeyPair "h1" "pub1" "priv1");
             CallDeleteKey (mkKeyPair "h1" "pub1" "")] in
  call_error (CallGetKeyFromID "h1") (after_calls cs NewMemKeyPairStorage)
  = Some ErrNotFound ∧
  (ValidationError ErrNotFound ∨ NotFound ErrNotFound).
Proof.
  intros cs.
  assert (call_error (CallGetKeyFromID "h1")
            (after_calls cs NewMemKeyPairStorage) = Some ErrNotFound) as He
    by (vm_compute; reflexivity).
  split; [exact He|].
  exact (reachable_errors cs (CallGetKeyFromID "h1") ErrNotFound He).
Defined.

(** ** Key pairs that share an ID or a public key *)

(** X12. When a key pair was replaced by one with the same ID and another
    public key, a delete through the ID removes the ID and the public key
    of the replacement only: the public key of the replaced key pair is
    still resolved, and still accepted by [IsValid]. *)
Theorem DeleteKey_by_id_after_overwrite
    (k1 k2 req : KeyPair) (m : MemKeyPairStorage) :
  valid k1 → valid k2 → ID k1 = ID k2 → Public k1 ≠ Public k2 →
  ID req = ID k1 → Public req = "" →
  let m2 := store_after (AddKey k2) (store_after (AddKey k1) m) in
  let m3 := store_after (DeleteKey req) m2 in
  result_of (DeleteKey req) m2 = None ∧
  result_of (GetKeyFromID (ID k1)) m3 = Err ErrNotFound ∧
  result_of (GetKeyFromPublic (Public k2)) m3 = Err ErrNotFound ∧
  result_of (GetKeyFromPublic (Public k1)) m3 = Ok k1 ∧
  result_of (IsValid (Public k1)) m3 = None.
Proof.
  intros H1 H2 Hid Hpub Hreq Hempty m2 m3. subst m3 m2.
  rewrite (AddKey_valid k1 m H1). simpl.
  rewrite (AddKey_valid k2 _ H2). simpl.
  rewrite (DeleteKey_by_id req _ Hempty). simpl.
  rewrite Hreq, Hid, lookup_insert_eq. simpl.
  rewrite IsValid_eq, GetKeyFromID_eq, !GetKeyFromPublic_eq. simpl.
  rewrite !lookup_delete_eq.
  rewrite lookup_delete_ne by done.
  rewrite lookup_insert_ne by done.
  by rewrite lookup_insert_eq.
Qed.

Lemma DeleteKey_by_id_after_overwrite_witness :
  let k1 := mkKeyPair "h1" "pub1" "priv1" in
  let k2 := mkKeyPair "h1" "pub2" "priv2" in
  let req := mkKeyPair "h1" "" "" in
  let m2 := store_after (AddKey k2)
              (store_after (AddKey k1) NewMemKeyPairStorage) in
  valid k1 ∧ valid k2 ∧
  result_of (IsValid "pub1") (store_after (DeleteKey req) m2) = None.
Proof.
  intros k1 k2 req m2.
  assert (valid k1) as H1 by (repeat split; discriminate).
  assert (valid k2) as H2 by (repeat split; discriminate).
  split; [exact H1|]. split; [exact H2|].
  apply (DeleteKey_by_id_after_overwrite k1 k2 req NewMemKeyPairStorage H1 H2);
    [reflexivity | discriminate | reflexivity | reflexivity].
Defined.

(** X13. When two valid key pairs with different IDs carry the same public
    key, a delete of the first through its ID removes the public key from
    the public index: the second key pair is still found by its ID, but its
    public key is no longer resolved. *)
Theorem DeleteKey_by_id_shared_public
    (k1 k2 req : KeyPair) (m : MemKeyPairStorage) :
  valid k1 → valid k2 → ID k1 ≠ ID k2 → Public k1 = Public k2 →
  ID req = ID k1 → Public req = "" →
  let m2 := store_after (AddKey k2) (store_after (AddKey k1) m) in
  let m3 := store_after (DeleteKey req) m2 in
  result_of (DeleteKey req) m2 = None ∧
  result_of (GetKeyFromID (ID k2)) m3 = Ok k2 ∧
  result_of (GetKeyFromPublic (Public k2)) m3 = Err ErrNotFound.
Proof.
  intros H1 H2 Hid Hpub Hreq Hempty m2 m3. subst m3 m2.
  rewrite (AddKey_valid k1 m H1). simpl.
  rewrite (AddKey_valid k2 _ H2). simpl.
  rewrite (DeleteKey_by_id req _ Hempty). simpl.
  rewrite Hreq, lookup_insert_ne by done.
  rewrite lookup_insert_eq. simpl.
  rewrite GetKeyFromID_eq, GetKeyFromPublic_eq. simpl.
  rewrite lookup_delete_ne by done.
  by rewrite lookup_insert_eq, Hpub, lookup_delete_eq.
Qed.

Lemma DeleteKey_by_id_shared_public_witness :
  let k1 := mkKeyPair "h1" "pub" "priv1" in
  let k2 := mkKeyPair "h2" "pub" "priv2" in
  let req := mkKeyPair "h1" "" "" in
  let m2 := store_after (AddKey k2)
              (store_after (AddKey k1) NewMemKeyPairStorage) in
  valid k1 ∧ valid k2 ∧
  result_of (GetKeyFromID "h2") (store_after (DeleteKey req) m2) = Ok k2 ∧
  result_of (GetKeyFromPublic "pub") (store_after (DeleteKey req) m2)
  = Err ErrNotFound.
Proof.
  intros k1 k2 req m2.
  assert (valid k1) as H1 by (repeat split; discriminate).
  assert (valid k2) as H2 by (repeat split; discriminate).
  split; [exact H1|]. split; [exact H2|].
  apply (DeleteKey_by_id_shared_public k1 k2 req NewMemKeyPairStorage H1 H2);
    [discriminate | reflexivity | reflexivity | reflexivity].
Defined.

(** ** Sizes of the indexes *)


(** ** Replacing a key pair by delete-then-add *)

(** X15. Replacing a stored key pair by deleting it through its ID and then
    adding a valid key pair with the same ID and another public key leaves
    no trace of the old public key: the ID and the new public key resolve
    to the new key pair, and the old public key fails with
    [cache.ErrNotFound]. *)
Theorem DeleteKey_then_AddKey_replaces
    (k1 k2 req : KeyPair) (m : MemKeyPairStorage) :
  valid k1 → valid k2 → ID k1 = ID k2 → Public k1 ≠ Public k2 →
  ID req = ID k1 → Public req = "" →
  let m1 := store_after (AddKey k1) m in
  let m2 := store_after (DeleteKey req) m1 in
  let m3 := store_after (AddKey k2) m2 in
  result_of (DeleteKey req) m1 = None ∧
  result_of (AddKey k2) m2 = None ∧
  result_of (GetKeyFromID (ID k1)) m3 = Ok k2 ∧
  result_of (GetKeyFromPublic (Public k2)) m3 = Ok k2 ∧
  result_of (GetKeyFromPublic (Public k1)) m3 = Err ErrNotFound.
Proof.
  intros H1 H2 Hid Hpub Hreq Hempty m1 m2 m3. subst m3 m2 m1.
  rewrite (AddKey_valid k1 m H1). simpl.
  rewrite (DeleteKey_by_id req _ Hempty). simpl.
  rewrite Hreq, lookup_insert_eq. simpl.
  rewrite (AddKey_valid k2 _ H2). simpl.
  rewrite GetKeyFromID_eq, !GetKeyFromPublic_eq. simpl.
  rewrite Hid, !lookup_insert_eq.
  rewrite lookup_insert_ne by done.
  by rewrite lookup_delete_eq.
Qed.

Lemma DeleteKey_then_AddKey_replaces_witness :
  let k1 := mkKeyPair "h1" "pub1" "priv1" in
  let k2 := mkKeyPair "h1" "pub2" "priv2" in
  let req := mkKeyPair "h1" "" "" in
  let m2 := store_after (DeleteKey req)
              (store_after (AddKey k1) NewMemKeyPairStorage) in
  valid k1 ∧ valid k2 ∧
  result_of (GetKeyFromPublic "pub1") (store_after (AddKey k2) m2)
  = Err ErrNotFound.
Proof.
  intros k1 k2 req m2.
  assert (valid k1) as H1 by (repeat split; discriminate).
  assert (valid k2) as H2 by (repeat split; discriminate).
  split; [exact H1|]. split; [exact H2|].
  apply (DeleteKey_then_AddKey_replaces k1 k2 req NewMemKeyPairStorage H1 H2);
    [reflexivity | discriminate | reflexivity | reflexivity].
Defined.
